(** * Helix: MoldUDP session layer and the helix-svm order-book tool

    Two parts of the repository are covered.

    - [src/nasdaq/moldudp.hh] declares [moldudp_session], a
      [net::message_parser] that holds a downstream parser ([_parser]) and a
      32-bit sequence counter ([_seq_num]) and offers one operation, [parse].
      The body of [parse] lives in a translation unit that is not part of
      the sources at hand, so the operation is modelled from the design
      document, step by step (module [MoldUDP]).
    - [tools/helix-svm/helix-svm.cc] defines [svm_session] with its feature
      extraction and its lookback buffer (module [Svm]); it is embedded from
      the code. *)

From Stdlib Require Import List NArith ZArith Lia Bool Arith.
From Stdlib Require Import Strings.Byte.
From Stdlib Require Import Floats.
From Stdlib Require Strings.Ascii Strings.String.
Import ListNotations.

Set Implicit Arguments.

(** ** Packet views *)
Module Net.

(** Modelled from the spec: the Packet View, [net::packet_view], which
    [moldudp.hh] uses and [helix/net.hh] declares; that header is not among
    the sources.  An immutable, bounds-checked view over a byte range with a
    read cursor: it is taken as the bytes between the cursor and the end, so
    that reading drops a prefix. *)
Definition packet_view := list byte.

Definition remaining (v : packet_view) : N := N.of_nat (length v).

(** Carve [n] bytes off the front of the view. *)
Definition subview (n : nat) (v : packet_view) : option (list byte * packet_view) :=
  if n <=? length v then Some (firstn n v, skipn n v) else None.

(** Big-endian value of a byte string. *)
Definition be_value (bs : list byte) : N :=
  fold_left (fun acc b => (256 * acc + Byte.to_N b)%N) bs 0%N.

Definition read_be (width : nat) (v : packet_view) : option (N * packet_view) :=
  match subview width v with
  | Some (bs, rest) => Some (be_value bs, rest)
  | None => None
  end.

Definition read_u16 := read_be 2.
Definition read_u32 := read_be 4.

(** Writers, used to state properties of packets on the wire. *)
Definition byte_of_N (n : N) : byte :=
  match Byte.of_N (n mod 256) with
  | Some b => b
  | None => x00
  end.

Fixpoint be_bytes (width : nat) (n : N) : list byte :=
  match width with
  | O => []
  | S w => be_bytes w (n / 256) ++ [byte_of_N n]
  end.

Definition write_u16 := be_bytes 2.
Definition write_u32 := be_bytes 4.

End Net.

(** ** The MoldUDP session *)
Module MoldUDP.
Import Net.
Local Open Scope N_scope.

(** *** Wire format *)

(** Modelled from the spec: the wire format, whose structures are defined
    with the body of [parse] and are not among the sources.  Header:
    [sessionId[10] | sequenceNumber:u32-BE | messageCount:u16-BE]; frame:
    [length:u16-BE | payload[length]]; [messageCount = 0] is a heartbeat and
    [messageCount = 0xFFFF] the end-of-session tombstone. *)
Definition HEADER_LEN : N := 16.
Definition SESSION_ID_LEN : nat := 10.
Definition HEARTBEAT : N := 0.
Definition END_OF_SESSION : N := 0xFFFF.

Record header := {
  sessionId : list byte;
  sequenceNumber : N;
  messageCount : N
}.

Definition read_header (v : packet_view) : option (header * packet_view) :=
  match subview SESSION_ID_LEN v with
  | Some (sid, v1) =>
    match read_u32 v1 with
    | Some (seq, v2) =>
      match read_u16 v2 with
      | Some (cnt, v3) =>
        Some ({| sessionId := sid; sequenceNumber := seq; messageCount := cnt |}, v3)
      | None => None
      end
    | None => None
    end
  | None => None
  end.

Definition write_header (h : header) : list byte :=
  sessionId h ++ write_u32 (sequenceNumber h) ++ write_u16 (messageCount h).

Definition write_frame (payload : list byte) : list byte :=
  write_u16 (N.of_nat (length payload)) ++ payload.

Definition write_frames (payloads : list (list byte)) : list byte :=
  flat_map write_frame payloads.

(** Bytes taken by a run of frames: the sum of [2 + len_i]. *)
Definition frames_len (payloads : list (list byte)) : N :=
  fold_right (fun p acc => 2 + N.of_nat (length p) + acc) 0 payloads.

Fixpoint bytes_eqb (a b : list byte) : bool :=
  match a, b with
  | [], [] => true
  | x :: a', y :: b' => Byte.eqb x y && bytes_eqb a' b'
  | _, _ => false
  end.

(** *** Session state and conditions *)

(** Modelled from the spec: the conditions that [parse] surfaces to its
    caller; [Truncated] and [Malformed] fail the call, the others do not. *)
Inductive condition :=
| Gap (expected observed : N)
| SessionChanged
| EndOfSession
| Truncated
| Malformed
| FramingMismatch.

Record session_stats := {
  duplicates : N;
  gaps : N;
  forwarded : N
}.

(** Modelled from the spec: the session state.  The class declaration in
    [moldudp.hh] carries [_parser] and [uint32_t _seq_num] only; [_seq_num]
    is the design document's [expectedSequence], while [lastSessionId]
    ([None] until a packet has been accepted), [terminated] and [stats] are
    the further fields of its data model, which the declaration lacks. *)
Record session := {
  _seq_num : N;
  lastSessionId : option (list byte);
  terminated : bool;
  stats : session_stats
}.

Definition expectedSequence : session -> N := _seq_num.

(** [_seq_num] is a [uint32_t]: additions wrap. *)
Definition SEQ_MODULUS : N := 2 ^ 32.
Definition wrap32 (n : N) : N := n mod SEQ_MODULUS.

(** Modelled from the spec: the constructor, whose body is not among the
    sources; the session starts at [expectedSequence = 1]. *)
Definition moldudp_session : session :=
  {| _seq_num := 1; lastSessionId := None; terminated := false;
     stats := {| duplicates := 0; gaps := 0; forwarded := 0 |} |}.

Definition set_seq (n : N) (st : session) : session :=
  {| _seq_num := n; lastSessionId := lastSessionId st;
     terminated := terminated st; stats := stats st |}.

Definition accept (sid : list byte) (st : session) : session :=
  {| _seq_num := _seq_num st; lastSessionId := Some sid;
     terminated := terminated st; stats := stats st |}.

Definition terminate (st : session) : session :=
  {| _seq_num := _seq_num st; lastSessionId := lastSessionId st;
     terminated := true; stats := stats st |}.

Definition count_duplicate (st : session) : session :=
  {| _seq_num := _seq_num st; lastSessionId := lastSessionId st;
     terminated := terminated st;
     stats := {| duplicates := duplicates (stats st) + 1; gaps := gaps (stats st);
                 forwarded := forwarded (stats st) |} |}.

Definition count_gap (st : session) : session :=
  {| _seq_num := _seq_num st; lastSessionId := lastSessionId st;
     terminated := terminated st;
     stats := {| duplicates := duplicates (stats st); gaps := gaps (stats st) + 1;
                 forwarded := forwarded (stats st) |} |}.

Definition advance (n : N) (st : session) : session :=
  {| _seq_num := wrap32 (_seq_num st + n); lastSessionId := lastSessionId st;
     terminated := terminated st;
     stats := {| duplicates := duplicates (stats st); gaps := gaps (stats st);
                 forwarded := forwarded (stats st) + n |} |}.

Inductive outcome :=
| Consumed (n : N)
| Failed (c : condition).

Definition bytes_consumed (r : outcome) : N :=
  match r with
  | Consumed n => n
  | Failed _ => 0
  end.

Section WithSink.

(** The Message Sink: [net::message_parser], the abstract interface behind
    [_parser].  It has one operation, which takes a view and reports how
    many bytes it consumed; its implementations keep state of their own. *)
Variable Sink : Type.
Variable consume : Sink -> list byte -> Sink * N.

(** The sink after it has been handed a list of views. *)
Definition feed (snk : Sink) (views : list (list byte)) : Sink :=
  fold_left (fun s view => fst (consume s view)) views snk.

(** What one call of [parse] does: its result, the conditions it surfaces,
    the views it hands to the sink in order, and the states it leaves. *)
Record output := {
  result : outcome;
  signals : list condition;
  sink_calls : list (list byte);
  session_after : session;
  sink_after : Sink
}.

Definition quiet (r : outcome) (sig : list condition) (st : session) (snk : Sink) : output :=
  {| result := r; signals := sig; sink_calls := []; session_after := st; sink_after := snk |}.

Definition with_signals (sig : list condition) (o : output) : output :=
  {| result := result o; signals := sig ++ signals o; sink_calls := sink_calls o;
     session_after := session_after o; sink_after := sink_after o |}.

(** Every condition surfaced by a call, the failure included. *)
Definition conditions (o : output) : list condition :=
  signals o ++ match result o with Failed c => [c] | Consumed _ => [] end.

Record frames_result := {
  fr_error : option condition;
  fr_len : N;
  fr_calls : list (list byte);
  fr_signals : list condition;
  fr_sink : Sink
}.

(** Modelled from the spec: the framing pass of [parse] (step 4, equal
    sequence, neither heartbeat nor tombstone).  For each of the
    [messageCount] frames: read the 2-byte length and check that the payload
    is fully present, else fail [Malformed] ([Truncated] when the length
    itself does not fit).  Nothing is handed on in this pass: a malformed
    frame results in no forwarding. *)
Fixpoint read_frames (count : nat) (v : packet_view) : condition + list (list byte) :=
  match count with
  | O => inr []
  | S count' =>
    match read_u16 v with
    | None => inl Truncated
    | Some (len, v1) =>
      match subview (N.to_nat len) v1 with
      | None => inl Malformed
      | Some (payload, v2) =>
        match read_frames count' v2 with
        | inl c => inl c
        | inr payloads => inr (payload :: payloads)
        end
      end
    end
  end.

(** Modelled from the spec: the delivery of the validated frames, in frame
    order, each as a view of exactly its payload; what the sink reports is
    compared with the wire length and only logged. *)
Fixpoint deliver (payloads : list (list byte)) (snk : Sink) : list condition * Sink :=
  match payloads with
  | [] => ([], snk)
  | payload :: rest =>
    let (snk1, used) := consume snk payload in
    let (sig, snk2) := deliver rest snk1 in
    ((if used =? N.of_nat (length payload) then [] else [FramingMismatch]) ++ sig, snk2)
  end.

(** Modelled from the spec: the frame loop of [parse], framing first and
    delivery after it.  On a framing failure the sink has not been called. *)
Definition forward_frames (count : nat) (v : packet_view) (snk : Sink) : frames_result :=
  match read_frames count v with
  | inl c =>
    {| fr_error := Some c; fr_len := 0; fr_calls := []; fr_signals := []; fr_sink := snk |}
  | inr payloads =>
    let (sig, snk') := deliver payloads snk in
    {| fr_error := None; fr_len := frames_len payloads; fr_calls := payloads;
       fr_signals := sig; fr_sink := snk' |}
  end.

(** Modelled from the spec: step 3 of [parse], the session-rollover check.
    A session id other than the one of the last accepted packet surfaces
    [SessionChanged] and resets [expectedSequence] to the packet's sequence
    number. *)
Definition check_session (st : session) (h : header) : session * list condition :=
  match lastSessionId st with
  | Some sid =>
    if bytes_eqb sid (sessionId h) then (st, [])
    else (set_seq (sequenceNumber h) st, [SessionChanged])
  | None => (st, [])
  end.

(** Modelled from the spec: step 4 of [parse], the comparison of the
    packet's sequence number with [expectedSequence].  Equal: heartbeat,
    tombstone, or the frame loop followed by [expectedSequence +=
    messageCount]; less: duplicate; greater: gap.  [st] is the session after
    the rollover check and [before] the session as the call found it: state
    is only mutated after full validation of the normal path, so a frame
    loop that fails leaves [before], the reset of step 3 undone with it.
    The design document does not say where [lastSessionId] and the counters
    of [stats] are written: here a packet that completes the equal-sequence
    path is the accepted one and leaves its session id, the duplicate and
    gap paths count themselves, and the forwarded counter moves together
    with [expectedSequence]. *)
Definition sequenced (before st : session) (snk : Sink) (h : header)
    (pkt body : packet_view) : output :=
  match sequenceNumber h ?= _seq_num st with
  | Eq =>
    if messageCount h =? HEARTBEAT then
      quiet (Consumed HEADER_LEN) [] (accept (sessionId h) st) snk
    else if messageCount h =? END_OF_SESSION then
      quiet (Consumed HEADER_LEN) [EndOfSession] (terminate (accept (sessionId h) st)) snk
    else
      let r := forward_frames (N.to_nat (messageCount h)) body snk in
      match fr_error r with
      | Some c => quiet (Failed c) [] before snk
      | None =>
        {| result := Consumed (HEADER_LEN + fr_len r); signals := fr_signals r;
           sink_calls := fr_calls r;
           session_after := advance (messageCount h) (accept (sessionId h) st);
           sink_after := fr_sink r |}
      end
  | Lt => quiet (Consumed (remaining pkt)) [] (count_duplicate st) snk
  | Gt =>
    quiet (Consumed (remaining pkt)) [Gap (_seq_num st) (sequenceNumber h)]
          (count_gap st) snk
  end.

(** Modelled from the spec: [moldudp_session::parse], declared in
    [moldudp.hh]; its body is not among the sources.  Steps 1 to 5 of the
    design document's algorithm, in their order; a call that fails with
    [Truncated] or [Malformed] leaves the session state and the sink as it
    found them. *)
Definition parse (st : session) (snk : Sink) (pkt : packet_view) : output :=
  if remaining pkt <? HEADER_LEN then quiet (Failed Truncated) [] st snk
  else
    match read_header pkt with
    | None => quiet (Failed Truncated) [] st snk
    | Some (h, body) =>
      if terminated st then quiet (Consumed (remaining pkt)) [] st snk
      else
        let (st1, sig) := check_session st h in
        with_signals sig (sequenced st st1 snk h pkt body)
    end.


(** A run of [parse] calls on one session instance. *)
Fixpoint run (st : session) (snk : Sink) (pkts : list packet_view) : list output :=
  match pkts with
  | [] => []
  | pkt :: rest =>
    let o := parse st snk pkt in
    o :: run (session_after o) (sink_after o) rest
  end.




End WithSink.

(** *** Vocabulary for the properties *)








(** *** Test vectors

    A sink that records the views it is given and reports each as fully
    consumed, two session ids, and a packet builder. *)
Definition recorder := list (list byte).

Definition record_view (s : recorder) (view : list byte) : recorder * N :=
  (s ++ [view], N.of_nat (length view)).

Definition session_A : list byte := repeat x41 SESSION_ID_LEN.

Definition packet (sid : list byte) (seq : N) (payloads : list (list byte)) : packet_view :=
  write_header {| sessionId := sid; sequenceNumber := seq;
                  messageCount := N.of_nat (length payloads) |}
  ++ write_frames payloads.

Definition control_packet (sid : list byte) (seq count : N) : packet_view :=
  write_header {| sessionId := sid; sequenceNumber := seq; messageCount := count |}.

(** A frame that declares nine payload bytes and carries one. *)
Definition overlong_frame : list byte := write_u16 9 ++ [x41].

(** The recorded run of a fresh session over a list of packets, and the
    session it leaves. *)
Definition recorded (pkts : list packet_view) : list (output recorder) :=
  run record_view moldudp_session [] pkts.


Definition msg_AA : list byte := [x41; x41].
Definition msg_BB : list byte := [x42; x42].
Definition msg_CC : list byte := [x43; x43].
Definition msg_EE : list byte := [x45; x45].

End MoldUDP.

(** ** helix-svm: order-book events for libsvm *)
Module Svm.

(** Type of mid price movement. *)
Inductive label_type :=
| upward
| downward
| stationary.

(** [int(label)], as [fmt] prints it. *)
Definition label_int (l : label_type) : Z :=
  match l with
  | upward => 1
  | downward => -1
  | stationary => 0
  end.

Definition nr_levels : nat := 5.

(** Look-ahead interval ahead of current time. *)
Definition lookahead_interval : nat := 5.

Definition label (prev_midprice midprice : N) : label_type :=
  if (prev_midprice <? midprice)%N then upward
  else if (midprice <? prev_midprice)%N then downward
  else stationary.

Section WithOrderBook.

(** The order-book accessors of [helix-c/helix.h], which is not among the
    sources: a handle type and read-only queries by level. *)
Variable helix_order_book_t : Type.
Variable helix_order_book_ask_levels : helix_order_book_t -> nat.
Variable helix_order_book_bid_levels : helix_order_book_t -> nat.
Variable helix_order_book_bid_price : helix_order_book_t -> nat -> N.
Variable helix_order_book_ask_price : helix_order_book_t -> nat -> N.
Variable helix_order_book_bid_size : helix_order_book_t -> nat -> N.
Variable helix_order_book_ask_size : helix_order_book_t -> nat -> N.
Variable helix_order_book_midprice : helix_order_book_t -> nat -> N.

(** [double] and the operations [extract] and [process_ob_event] apply to
    it: conversion from an integer, the literal [10000.0], division,
    subtraction, [abs] and [==]. *)
Variable double : Type.
Variable of_int : N -> double.
Variable lit_10000 : double.
Variable fdiv : double -> double -> double.
Variable fsub : double -> double -> double.
Variable fabs : double -> double.
Variable feqb : double -> double -> bool.

Record features := {
  values : list double
}.

(** [features::add] is [values.push_back(v)]. *)
Definition add (v : double) (f : features) : features :=
  {| values := values f ++ [v] |}.

(** [operator==] of [std::vector<double>]: equal sizes and equal elements. *)
Fixpoint vector_eqb (a b : list double) : bool :=
  match a, b with
  | [], [] => true
  | x :: a', y :: b' => feqb x y && vector_eqb a' b'
  | _, _ => false
  end.

Definition extract_level (ob : helix_order_book_t) (result : features) (i : nat) : features :=
  let bid_price := fdiv (of_int (helix_order_book_bid_price ob i)) lit_10000 in
  let ask_price := fdiv (of_int (helix_order_book_ask_price ob i)) lit_10000 in
  let bid_size := of_int (helix_order_book_bid_size ob i) in
  let ask_size := of_int (helix_order_book_ask_size ob i) in
  let midprice := fdiv (of_int (helix_order_book_midprice ob i)) lit_10000 in
  (* Price and volume (n levels): *)
  let result := add ask_price result in
  let result := add ask_size result in
  let result := add bid_price result in
  let result := add bid_size result in
  (* Bid-ask spread and mid-prices: *)
  let result := add (fsub ask_price bid_price) result in
  add midprice result.

Definition extract_difference (ob : helix_order_book_t) (result : features) (i : nat) : features :=
  (* Price differences: *)
  let bid0 := fdiv (of_int (helix_order_book_midprice ob (i - 1))) lit_10000 in
  let bid1 := fdiv (of_int (helix_order_book_midprice ob i)) lit_10000 in
  let ask0 := fdiv (of_int (helix_order_book_midprice ob (i - 1))) lit_10000 in
  let ask1 := fdiv (of_int (helix_order_book_midprice ob i)) lit_10000 in
  let result := add (fabs (fsub ask1 ask0)) result in
  add (fabs (fsub bid1 bid0)) result.

(** [svm_session::extract]: the loop over the levels [0 .. nr_levels - 1],
    then the loop over the adjacent pairs [1 .. nr_levels - 1]. *)
Definition extract (ob : helix_order_book_t) : features :=
  let result := {| values := [] |} in
  let result := fold_left (extract_level ob) (seq 0 nr_levels) result in
  fold_left (extract_difference ob) (seq 1 (nr_levels - 1)) result.

(** What [fmt] writes to [cout]: the label, then [i+1:value] for each
    feature. *)
Definition fmt (l : label_type) (f : features) : Z * list (nat * double) :=
  (label_int l, combine (seq 1 (length (values f))) (values f)).

(** The session: the lookback buffer of (midprice, features) tuples, and
    the lines written so far. *)
Record svm_session := {
  current_time : N;
  lookback : list (N * features);
  printed : list (Z * list (nat * double))
}.

Definition svm_session_init : svm_session :=
  {| current_time := 0; lookback := []; printed := [] |}.

Definition set_lookback (lb : list (N * features)) (s : svm_session) : svm_session :=
  {| current_time := current_time s; lookback := lb; printed := printed s |}.

Definition print_line (line : Z * list (nat * double)) (s : svm_session) : svm_session :=
  {| current_time := current_time s; lookback := lookback s;
     printed := printed s ++ [line] |}.

(** [svm_session::process_ob_event]. *)
Definition process_ob_event (s : svm_session) (ob : helix_order_book_t) : svm_session :=
  if (helix_order_book_ask_levels ob <? nr_levels)
     && (helix_order_book_bid_levels ob <? nr_levels) then s
  else
    let midprice := helix_order_book_midprice ob 0 in
    let curr_features := extract ob in
    match lookback s with
    | [] => set_lookback (lookback s ++ [(midprice, curr_features)]) s
    | (prev_midprice, prev_features) :: _ =>
      if vector_eqb (values curr_features) (values prev_features) then s
      else
        let s := set_lookback (lookback s ++ [(midprice, curr_features)]) s in
        if length (lookback s) <? lookahead_interval then s
        else
          let s := set_lookback (tl (lookback s)) s in
          print_line (fmt (label prev_midprice midprice) prev_features) s
    end.

(** The session after a stream of order-book events. *)
Definition process_ob_events (s : svm_session) (obs : list helix_order_book_t) : svm_session :=
  fold_left process_ob_event obs s.

(** *** Vocabulary for streams of events *)

(** The test at the head of [process_ob_event]: fewer than [nr_levels]
    levels on the ask side and on the bid side. *)
Definition shallow (ob : helix_order_book_t) : bool :=
  (helix_order_book_ask_levels ob <? nr_levels)
  && (helix_order_book_bid_levels ob <? nr_levels).

(** The tuple that [process_ob_event] appends for an event. *)
Definition entry_of (ob : helix_order_book_t) : N * features :=
  (helix_order_book_midprice ob 0, extract ob).

(** The line written for a buffered entry when a newer one pushes it out. *)
Definition line_of (old new : N * features) : Z * list (nat * double) :=
  fmt (label (fst old) (fst new)) (snd old).

(** The features of [later] are not [==] to those of [earlier]. *)
Definition differs (earlier later : helix_order_book_t) : bool :=
  negb (vector_eqb (values (extract later)) (values (extract earlier))).

End WithOrderBook.

(** The shape of a line of the output: a label in -1, 0, 1 and the 38
    features numbered from 1. *)
Definition libsvm_line (double : Type) (line : Z * list (nat * double)) : Prop :=
  In (fst line) [-1; 0; 1]%Z
  /\ map fst (snd line) = seq 1 (6 * nr_levels + 2 * (nr_levels - 1)).

(** Every element is related to all the elements after it. *)
Fixpoint all_later (A : Type) (R : A -> A -> bool) (l : list A) : bool :=
  match l with
  | [] => true
  | a :: rest => forallb (R a) rest && all_later R rest
  end.

(** *** A stand-in order book and binary64 arithmetic, to run the code

    The book is a list of levels; its mid price at a level is the mean of
    the bid and ask prices there.  [double] is IEEE 754 binary64. *)
Record book_level := {
  level_bid_price : N;
  level_bid_size : N;
  level_ask_price : N;
  level_ask_size : N
}.

Definition book := list book_level.

Definition empty_level : book_level :=
  {| level_bid_price := 0; level_bid_size := 0; level_ask_price := 0; level_ask_size := 0 |}.

Definition at_level (field : book_level -> N) (ob : book) (i : nat) : N :=
  field (nth i ob empty_level).

Definition book_midprice (ob : book) (i : nat) : N :=
  ((at_level level_bid_price ob i + at_level level_ask_price ob i) / 2)%N.

Definition double_of_int (n : N) : float :=
  PrimFloat.of_uint63 (Uint63.of_Z (Z.of_N n)).

Definition book_extract : book -> features float :=
  extract (at_level level_bid_price) (at_level level_ask_price)
          (at_level level_bid_size) (at_level level_ask_size) book_midprice
          double_of_int (double_of_int 10000) PrimFloat.div PrimFloat.sub PrimFloat.abs.

Definition book_process_ob_event : svm_session float -> book -> svm_session float :=
  process_ob_event (@length book_level) (@length book_level)
          (at_level level_bid_price) (at_level level_ask_price)
          (at_level level_bid_size) (at_level level_ask_size) book_midprice
          double_of_int (double_of_int 10000) PrimFloat.div PrimFloat.sub PrimFloat.abs
          PrimFloat.eqb.

Definition book_process_ob_events : svm_session float -> list book -> svm_session float :=
  process_ob_events (@length book_level) (@length book_level)
          (at_level level_bid_price) (at_level level_ask_price)
          (at_level level_bid_size) (at_level level_ask_size) book_midprice
          double_of_int (double_of_int 10000) PrimFloat.div PrimFloat.sub PrimFloat.abs
          PrimFloat.eqb.

Definition book_shallow : book -> bool :=
  shallow (@length book_level) (@length book_level).

Definition book_entry_of : book -> N * features float :=
  entry_of (at_level level_bid_price) (at_level level_ask_price)
          (at_level level_bid_size) (at_level level_ask_size) book_midprice
          double_of_int (double_of_int 10000) PrimFloat.div PrimFloat.sub PrimFloat.abs.

Definition book_differs : book -> book -> bool :=
  differs (at_level level_bid_price) (at_level level_ask_price)
          (at_level level_bid_size) (at_level level_ask_size) book_midprice
          double_of_int (double_of_int 10000) PrimFloat.div PrimFloat.sub PrimFloat.abs
          PrimFloat.eqb.

Definition sample_book (shift : N) : book :=
  map (fun k : N =>
         {| level_bid_price := 1000000 + shift - 100 * k; level_bid_size := 10 + k;
            level_ask_price := 1000200 + shift + 150 * k * k; level_ask_size := 20 + k |})
      [0; 1; 2; 3; 4]%N.

End Svm.

(** ** helix-svm: the command line *)
Module Cli.
Import Ascii String.
Local Open Scope string_scope.

Definition nl : string := String (ascii_of_nat 10) EmptyString.

(** [struct config]: the [const char *] fields are [None] when null. *)
Record config := {
  symbol : option string;
  multicast_proto : option string;
  multicast_addr : option string;
  multicast_port : Z;
  output : option string
}.

(** [struct config cfg = {}]. *)
Definition config_zero : config :=
  {| symbol := None; multicast_proto := None; multicast_addr := None;
     multicast_port := 0; output := None |}.

Inductive stdio :=
| to_stdout
| to_stderr.

(** A function either returns or leaves through [exit] after a [fprintf]. *)
Inductive run (A : Type) :=
| Returns (a : A)
| Exits (status : Z) (stream : stdio) (text : string).

Arguments Returns {A} a.
Arguments Exits {A} status stream text.

Section WithLibc.

(** [program] is [basename(argv[0])].  [strtol] stands for the value that
    [strtol(optarg, NULL, 10)] leaves in the [int] field
    [cfg->multicast_port]. *)
Variable program : string.
Variable strtol : string -> Z.

(** What [usage] prints to [stdout] before [exit(1)]. *)
Definition usage : string :=
  "usage: " ++ program ++ " [options]" ++ nl ++
  "  options:" ++ nl ++
  "    -s, --symbol symbol          Ticker symbol to listen to." ++ nl ++
  "    -c, --multicast-proto proto  UDP multicast protocol listen to." ++ nl ++
  "    -a, --multicast-addr addr    UDP multicast address to listen to." ++ nl ++
  "    -p, --multicast-port port    UDP multicast port to listen to." ++ nl ++
  "    -o, --output filename        Output filename." ++ nl ++
  "    -h, --help                   display this help and exit" ++ nl.

Definition set_symbol (v : string) (cfg : config) : config :=
  {| symbol := Some v; multicast_proto := multicast_proto cfg;
     multicast_addr := multicast_addr cfg; multicast_port := multicast_port cfg;
     output := output cfg |}.

Definition set_multicast_proto (v : string) (cfg : config) : config :=
  {| symbol := symbol cfg; multicast_proto := Some v;
     multicast_addr := multicast_addr cfg; multicast_port := multicast_port cfg;
     output := output cfg |}.

Definition set_multicast_addr (v : string) (cfg : config) : config :=
  {| symbol := symbol cfg; multicast_proto := multicast_proto cfg;
     multicast_addr := Some v; multicast_port := multicast_port cfg;
     output := output cfg |}.

Definition set_multicast_port (n : Z) (cfg : config) : config :=
  {| symbol := symbol cfg; multicast_proto := multicast_proto cfg;
     multicast_addr := multicast_addr cfg; multicast_port := n;
     output := output cfg |}.

Definition set_output (v : string) (cfg : config) : config :=
  {| symbol := symbol cfg; multicast_proto := multicast_proto cfg;
     multicast_addr := multicast_addr cfg; multicast_port := multicast_port cfg;
     output := Some v |}.

(** [parse_options].  The loop calls [getopt_long] until it returns -1; the
    list holds what the successive calls returned before that: the option
    character and [optarg], which [getopt_long] sets for the options that
    the option string ["s:c:a:o:p:h"] declares with an argument.  ['h'] and
    every other character go to [usage], which does not return. *)
Fixpoint parse_options (cfg : config) (opts : list (ascii * string)) : run config :=
  match opts with
  | [] => Returns cfg
  | (c, optarg) :: rest =>
    if Ascii.eqb c "s" then parse_options (set_symbol optarg cfg) rest
    else if Ascii.eqb c "c" then parse_options (set_multicast_proto optarg cfg) rest
    else if Ascii.eqb c "a" then parse_options (set_multicast_addr optarg cfg) rest
    else if Ascii.eqb c "o" then parse_options (set_output optarg cfg) rest
    else if Ascii.eqb c "p" then parse_options (set_multicast_port (strtol optarg) cfg) rest
    else Exits 1 to_stdout usage
  end.

(** The head of [main]: [parse_options] on the zeroed configuration, then
    the four checks for the options that must be given. *)
Definition main_options (opts : list (ascii * string)) : run config :=
  match parse_options config_zero opts with
  | Exits status stream text => Exits status stream text
  | Returns cfg =>
    match symbol cfg with
    | None =>
      Exits 1 to_stderr
        ("error: symbol is not specified. Use the '-s' option to specify it." ++ nl)
    | Some _ =>
    match multicast_proto cfg with
    | None =>
      Exits 1 to_stderr
        ("error: multicast protocol is not specified. Use the '-c' option to specify it."
         ++ nl)
    | Some _ =>
    match multicast_addr cfg with
    | None =>
      Exits 1 to_stderr
        ("error: multicast address is not specified. Use the '-a' option to specify it."
         ++ nl)
    | Some _ =>
    if (multicast_port cfg =? 0)%Z then
      Exits 1 to_stderr
        ("error: multicast port is not specified. Use the '-p' option to specify it."
         ++ nl)
    else Returns cfg
    end end end
  end.

End WithLibc.

(** *** Vocabulary for the properties *)

(** The option characters that [parse_options] stores. *)
Definition stored (c : ascii) : bool :=
  Ascii.eqb c "s" || Ascii.eqb c "c" || Ascii.eqb c "a" || Ascii.eqb c "o"
  || Ascii.eqb c "p".

(** The argument of the last occurrence of an option. *)
Fixpoint last_arg (c : ascii) (opts : list (ascii * string)) : option string :=
  match opts with
  | [] => None
  | (c', optarg) :: rest =>
    match last_arg c rest with
    | Some v => Some v
    | None => if Ascii.eqb c' c then Some optarg else None
    end
  end.

Definition or_else (A : Type) (x : option A) (default : option A) : option A :=
  match x with
  | Some v => Some v
  | None => default
  end.

(** *** A stand-in for [strtol]: the value of the leading decimal digits *)
Definition digit_value (c : ascii) : option Z :=
  let n := Z.of_nat (nat_of_ascii c) in
  if ((48 <=? n) && (n <=? 57))%Z then Some (n - 48)%Z else None.

Fixpoint leading_digits (acc : Z) (s : string) : Z :=
  match s with
  | EmptyString => acc
  | String c rest =>
    match digit_value c with
    | Some d => leading_digits (10 * acc + d)%Z rest
    | None => acc
    end
  end.

Definition decimal (s : string) : Z := leading_digits 0 s.

End Cli.

(** * Properties *)

Unset Implicit Arguments.

(** ** Packet views and the wire format *)
Section NetFacts.
Import Net.
Local Open Scope N_scope.


Lemma subview_Some (n : nat) (v a r : list byte) :
  subview n v = Some (a, r) -> v = a ++ r /\ length a = n.
Proof.
  unfold subview.
  destruct (Nat.leb_spec n (length v)) as [H | H]; [| discriminate].
  intros E; injection E as <- <-.
  split; [now rewrite firstn_skipn | now apply firstn_length_le].
Qed.



Lemma be_value_snoc (bs : list byte) (b : byte) :
  be_value (bs ++ [b]) = 256 * be_value bs + Byte.to_N b.
Proof. unfold be_value. now rewrite fold_left_app. Qed.

Lemma length_be_bytes (w : nat) (n : N) : length (be_bytes w n) = w.
Proof.
  revert n; induction w as [| w IH]; intros n; simpl; [reflexivity |].
  rewrite length_app, IH. simpl. lia.
Qed.


Lemma be_value_bound (bs : list byte) :
  be_value bs < 256 ^ N.of_nat (length bs).
Proof.
  induction bs as [| b bs IH] using rev_ind.
  - cbn. lia.
  - rewrite be_value_snoc, length_app. cbn [length].
    replace (N.of_nat (length bs + 1)) with (N.succ (N.of_nat (length bs))) by lia.
    rewrite N.pow_succ_r'.
    pose proof (Byte.to_N_bounded b). lia.
Qed.


Lemma read_be_Some (w : nat) (v r : list byte) (n : N) :
  read_be w v = Some (n, r) ->
  exists bs, v = bs ++ r /\ length bs = w /\ n = be_value bs.
Proof.
  unfold read_be.
  destruct (subview w v) as [[bs rest] |] eqn:E; [| discriminate].
  intros H; injection H as <- <-.
  apply subview_Some in E. exists bs. tauto.
Qed.


End NetFacts.

(** ** The MoldUDP wire format *)
Section WireFacts.
Import Net MoldUDP.
Local Open Scope N_scope.




Lemma length_write_header (h : header) :
  length (sessionId h) = SESSION_ID_LEN ->
  remaining (write_header h) = HEADER_LEN.
Proof.
  intros Hsid. unfold remaining, write_header, write_u32, write_u16.
  rewrite !length_app, !length_be_bytes, Hsid. reflexivity.
Qed.

Lemma read_header_Some (v body : packet_view) (h : header) :
  read_header v = Some (h, body) ->
  remaining v = HEADER_LEN + remaining body
  /\ length (sessionId h) = SESSION_ID_LEN
  /\ sequenceNumber h < 2 ^ 32
  /\ messageCount h < 2 ^ 16.
Proof.
  unfold read_header, read_u32, read_u16.
  destruct (subview SESSION_ID_LEN v) as [[sid v1] |] eqn:E1; [| discriminate].
  destruct (read_be 4 v1) as [[seq v2] |] eqn:E2; [| discriminate].
  destruct (read_be 2 v2) as [[cnt v3] |] eqn:E3; [| discriminate].
  intros E; injection E as <- <-.
  apply subview_Some in E1 as [-> Hsid].
  apply read_be_Some in E2 as (b4 & -> & H4 & ->).
  apply read_be_Some in E3 as (b2 & -> & H2 & ->).
  cbn [sessionId sequenceNumber messageCount].
  repeat split.
  - unfold remaining, HEADER_LEN. rewrite !length_app, Hsid, H4, H2.
    unfold SESSION_ID_LEN. lia.
  - exact Hsid.
  - pose proof (be_value_bound b4) as B. now rewrite H4 in B.
  - pose proof (be_value_bound b2) as B. now rewrite H2 in B.
Qed.


End WireFacts.

(** ** The session: one call of [parse] *)
Section SessionFacts.
Import Net MoldUDP.
Local Open Scope N_scope.

Context {Sink : Type} (consume : Sink -> list byte -> Sink * N).




Lemma check_session_cases (st : session) (h : header) :
  check_session st h = (st, [])
  \/ check_session st h = (set_seq (sequenceNumber h) st, [SessionChanged]).
Proof.
  unfold check_session. destruct (lastSessionId st) as [sid |]; [| now left].
  destruct (bytes_eqb sid (sessionId h)); [now left | now right].
Qed.


Lemma deliver_feed (payloads : list (list byte)) (snk : Sink) :
  snd (deliver consume payloads snk) = feed consume snk payloads.
Proof.
  revert snk; induction payloads as [| p payloads IH]; intros snk; [reflexivity |].
  cbn [deliver]. destruct (consume snk p) as [snk1 used] eqn:E.
  specialize (IH snk1). destruct (deliver consume payloads snk1) as [sig snk2].
  cbn [snd] in *. unfold feed in *. cbn [fold_left]. now rewrite E.
Qed.


(** The log of views is what the sink was fed. *)
Lemma forward_frames_feed (count : nat) (v : packet_view) (snk : Sink) :
  fr_sink (forward_frames consume count v snk)
  = feed consume snk (fr_calls (forward_frames consume count v snk)).
Proof.
  unfold forward_frames. destruct (read_frames count v) as [c | payloads]; [reflexivity |].
  pose proof (deliver_feed payloads snk) as F.
  destruct (deliver consume payloads snk) as [sig snk']. exact F.
Qed.

(** A framing failure reaches neither the sink nor the log. *)
Lemma forward_frames_failed (count : nat) (v : packet_view) (snk : Sink) (c : condition) :
  fr_error (forward_frames consume count v snk) = Some c ->
  fr_calls (forward_frames consume count v snk) = []
  /\ fr_sink (forward_frames consume count v snk) = snk.
Proof.
  unfold forward_frames. destruct (read_frames count v) as [c' | payloads]; [auto |].
  destruct (deliver consume payloads snk); discriminate.
Qed.






End SessionFacts.

(** ** The session: properties of one call *)
Section ParseProperties.
Import Net MoldUDP.
Local Open Scope N_scope.

Context {Sink : Type} (consume : Sink -> list byte -> Sink * N).

(** The views logged by a call are exactly what the sink received. *)
Lemma parse_feed (st : session) (snk : Sink) (pkt : packet_view) :
  sink_after (parse consume st snk pkt)
  = feed consume snk (sink_calls (parse consume st snk pkt)).
Proof.
  unfold parse.
  destruct (remaining pkt <? HEADER_LEN); [reflexivity |].
  destruct (read_header pkt) as [[h body] |]; [| reflexivity].
  destruct (terminated st); [reflexivity |].
  destruct (check_session st h) as [st1 sig].
  unfold with_signals, sequenced. cbn [sink_after sink_calls].
  destruct (sequenceNumber h ?= _seq_num st1); try reflexivity.
  destruct (messageCount h =? HEARTBEAT); [reflexivity |].
  destruct (messageCount h =? END_OF_SESSION); [reflexivity |].
  pose proof (forward_frames_feed consume (N.to_nat (messageCount h)) body snk) as F.
  destruct (fr_error _); [reflexivity | exact F].
Qed.

(** C8. A view of fewer than 16 bytes makes [parse] fail with [Truncated]:
    nothing is consumed, the sink is not called, and the session state and
    the sink are as they were. *)
Theorem parse_short_view_truncated (st : session) (snk : Sink) (pkt : packet_view) :
  remaining pkt < HEADER_LEN ->
  let o := parse consume st snk pkt in
  result o = Failed Truncated
  /\ bytes_consumed (result o) = 0
  /\ sink_calls o = []
  /\ session_after o = st
  /\ sink_after o = snk.
Proof.
  intros Hshort. unfold parse.
  destruct (N.ltb_spec (remaining pkt) HEADER_LEN) as [_ | H]; [| lia].
  cbn. auto.
Qed.







Lemma wrap32_bound (n : N) : wrap32 n < SEQ_MODULUS.
Proof. unfold wrap32. apply N.mod_upper_bound. unfold SEQ_MODULUS. lia. Qed.












End ParseProperties.

(** ** The session: sequences of calls *)
Section RunProperties.
Import Net MoldUDP.
Local Open Scope N_scope.

Context {Sink : Type} (consume : Sink -> list byte -> Sink * N).





(** [_seq_num] stays within the range of a [uint32_t]. *)
Lemma parse_seq_num_range (st : session) (snk : Sink) (pkt : packet_view) :
  expectedSequence st < SEQ_MODULUS ->
  expectedSequence (session_after (parse consume st snk pkt)) < SEQ_MODULUS.
Proof.
  intros Hwf. unfold parse.
  destruct (remaining pkt <? HEADER_LEN); [exact Hwf |].
  destruct (read_header pkt) as [[h body] |] eqn:Hread; [| exact Hwf].
  destruct (terminated st); [exact Hwf |].
  apply read_header_Some in Hread as (_ & _ & Hseq & _).
  assert (H1 : expectedSequence (fst (check_session st h)) < SEQ_MODULUS)
    by (destruct (check_session_cases st h) as [-> | ->]; [exact Hwf | exact Hseq]).
  destruct (check_session st h) as [st1 sig]. cbn [fst] in H1.
  unfold with_signals, sequenced. cbn [session_after].
  destruct (sequenceNumber h ?= _seq_num st1); try exact H1.
  destruct (messageCount h =? HEARTBEAT); [exact H1 |].
  destruct (messageCount h =? END_OF_SESSION); [exact H1 |].
  destruct (fr_error _); [exact Hwf | apply wrap32_bound].
Qed.






End RunProperties.

(** ** Scenarios on a recording sink *)
Section Scenarios.
Import Net MoldUDP.
Local Open Scope N_scope.

(** The end-to-end scenario of the design document: two messages, one
    message, its duplicate, a gapped packet, then the packet that fills the
    gap. *)
Example end_to_end_scenario :
  let outs := recorded [packet session_A 1 [msg_AA; msg_BB];
                        packet session_A 3 [msg_CC];
                        packet session_A 3 [msg_CC];
                        packet session_A 5 [msg_EE];
                        packet session_A 4 [msg_EE]] in
  map (@sink_calls recorder) outs = [[msg_AA; msg_BB]; [msg_CC]; []; []; [msg_EE]]
  /\ map (@conditions recorder) outs = [[]; []; []; [Gap 4 5]; []]
  /\ map (fun o => expectedSequence (session_after o)) outs = [3; 4; 4; 4; 5].
Proof. vm_compute. auto. Qed.

(** A packet whose second frame is overlong is dropped whole: nothing
    reaches the sink and the session does not move, so that the same
    sequence number sent again with complete frames is forwarded in full. *)
Example malformed_packet_forwards_nothing :
  let outs := recorded [control_packet session_A 1 2 ++ write_frame msg_AA ++ overlong_frame;
                        packet session_A 1 [msg_AA; msg_BB]] in
  map (@result recorder) outs = [Failed Malformed; Consumed 24]
  /\ map (@sink_calls recorder) outs = [[]; [msg_AA; msg_BB]]
  /\ map (fun o => expectedSequence (session_after o)) outs = [1; 3].
Proof. vm_compute. auto. Qed.








End Scenarios.

(** ** The theorems at work on the recording sink *)
Section Instances.
Import Net MoldUDP.
Local Open Scope N_scope.

(** A three-byte view on a fresh session. *)
Lemma parse_short_view_truncated_witness :
  remaining [x00; x01; x02] < HEADER_LEN
  /\ let o := parse record_view moldudp_session [] [x00; x01; x02] in
     result o = Failed Truncated
     /\ bytes_consumed (result o) = 0
     /\ sink_calls o = []
     /\ session_after o = moldudp_session
     /\ sink_after o = [].
Proof.
  split; [reflexivity |].
  apply (parse_short_view_truncated record_view moldudp_session [] [x00; x01; x02]).
  reflexivity.
Defined.








End Instances.

(** ** helix-svm: feature extraction and the lookback buffer *)
Section SvmProperties.
Import Svm.

Context {helix_order_book_t double : Type}
  (helix_order_book_ask_levels helix_order_book_bid_levels : helix_order_book_t -> nat)
  (helix_order_book_bid_price helix_order_book_ask_price
   helix_order_book_bid_size helix_order_book_ask_size
   helix_order_book_midprice : helix_order_book_t -> nat -> N)
  (of_int : N -> double) (lit_10000 : double)
  (fdiv fsub : double -> double -> double) (fabs : double -> double)
  (feqb : double -> double -> bool).

Local Abbreviation extract :=
  (Svm.extract helix_order_book_bid_price helix_order_book_ask_price
     helix_order_book_bid_size helix_order_book_ask_size helix_order_book_midprice
     of_int lit_10000 fdiv fsub fabs).

Local Abbreviation process_ob_event :=
  (Svm.process_ob_event helix_order_book_ask_levels helix_order_book_bid_levels
     helix_order_book_bid_price helix_order_book_ask_price
     helix_order_book_bid_size helix_order_book_ask_size helix_order_book_midprice
     of_int lit_10000 fdiv fsub fabs feqb).

Local Abbreviation process_ob_events :=
  (Svm.process_ob_events helix_order_book_ask_levels helix_order_book_bid_levels
     helix_order_book_bid_price helix_order_book_ask_price
     helix_order_book_bid_size helix_order_book_ask_size helix_order_book_midprice
     of_int lit_10000 fdiv fsub fabs feqb).

(** The feature vector has six entries per level and two per adjacent pair. *)
Lemma extract_length (ob : helix_order_book_t) :
  length (values (extract ob)) = 6 * nr_levels + 2 * (nr_levels - 1).
Proof. reflexivity. Qed.

(** C9. For every order book and every adjacent level pair [i] in 1..4, the
    two price-difference features appended for the pair are equal: each is
    the absolute difference of [helix_order_book_midprice] at levels [i-1]
    and [i], divided by 10000.0, and neither reads an ask or a bid price. *)
Theorem extract_price_differences_equal (ob : helix_order_book_t) (i : nat) :
  1 <= i <= nr_levels - 1 ->
  let f := values (extract ob) in
  let mid := fun level => fdiv (of_int (helix_order_book_midprice ob level)) lit_10000 in
  let first := nth_error f (6 * nr_levels + 2 * (i - 1)) in
  let second := nth_error f (6 * nr_levels + 2 * (i - 1) + 1) in
  first = second
  /\ first = Some (fabs (fsub (mid i) (mid (i - 1)))).
Proof.
  unfold nr_levels. intros Hi.
  assert (Hcases : i = 1 \/ i = 2 \/ i = 3 \/ i = 4) by lia.
  destruct Hcases as [-> | [-> | [-> | ->]]]; split; reflexivity.
Qed.

(** One event keeps a buffer of at most four entries at most four long. *)
Lemma process_ob_event_bound (s : svm_session double) (ob : helix_order_book_t) :
  length (lookback s) <= lookahead_interval - 1 ->
  length (lookback (process_ob_event s ob)) <= lookahead_interval - 1.
Proof.
  unfold Svm.process_ob_event. intros Hs.
  destruct (_ && _); [exact Hs |].
  destruct (lookback s) as [| [prev_midprice prev_features] rest] eqn:E.
  - cbn. lia.
  - destruct (vector_eqb _ _ _); [now rewrite E |].
    cbn [set_lookback lookback].
    destruct (Nat.ltb_spec (length (((prev_midprice, prev_features) :: rest) ++
                [(helix_order_book_midprice ob 0, extract ob)])) lookahead_interval)
      as [H | H].
    + cbn [set_lookback lookback]. lia.
    + cbn [print_line set_lookback lookback tl app]. cbn [length] in Hs.
      rewrite length_app. cbn [length]. lia.
Qed.

Lemma process_ob_events_bound (obs : list helix_order_book_t) (s : svm_session double) :
  length (lookback s) <= lookahead_interval - 1 ->
  length (lookback (process_ob_events s obs)) <= lookahead_interval - 1.
Proof.
  revert s; induction obs as [| ob obs IH]; intros s Hs; [exact Hs |].
  cbn [Svm.process_ob_events fold_left]. apply IH. now apply process_ob_event_bound.
Qed.

(** What one event does to the buffer: nothing, or one entry appended, with
    the front popped exactly when the appended buffer is no shorter than
    [lookahead_interval]. *)
Lemma process_ob_event_buffer (s : svm_session double) (ob : helix_order_book_t) :
  let entry := (helix_order_book_midprice ob 0, extract ob) in
  let s' := process_ob_event s ob in
  lookback s' = lookback s
  \/ (lookback s' = lookback s ++ [entry]
      /\ length (lookback s ++ [entry]) < lookahead_interval)
  \/ (lookback s' = tl (lookback s ++ [entry])
      /\ lookahead_interval <= length (lookback s ++ [entry])).
Proof.
  intros entry s'. subst s' entry. unfold Svm.process_ob_event.
  destruct (_ && _); [now left |].
  destruct (lookback s) as [| [prev_midprice prev_features] rest] eqn:E.
  - right; left. cbn. split; [reflexivity | unfold lookahead_interval; lia].
  - destruct (vector_eqb _ _ _); [left; now rewrite E |].
    cbn [set_lookback lookback].
    destruct (Nat.ltb_spec (length (((prev_midprice, prev_features) :: rest) ++
                [(helix_order_book_midprice ob 0, extract ob)])) lookahead_interval)
      as [H | H].
    + right; left. cbn [set_lookback lookback]. split; [reflexivity | exact H].
    + right; right. cbn [print_line set_lookback lookback]. split; [reflexivity | exact H].
Qed.

(** C10. After every call of [process_ob_event] on a session that started
    with the empty buffer, the lookback deque holds at most
    [lookahead_interval - 1 = 4] entries: the call appends at most one entry
    and pops the front whenever the size reaches [lookahead_interval], so
    the buffer stays bounded however many order-book events are processed. *)
Theorem lookback_bounded (obs : list helix_order_book_t) (ob : helix_order_book_t) :
  let entry := (helix_order_book_midprice ob 0, extract ob) in
  let s := process_ob_events (svm_session_init double) obs in
  let s' := process_ob_event s ob in
  lookahead_interval - 1 = 4
  /\ length (lookback s') <= lookahead_interval - 1
  /\ (lookback s' = lookback s
      \/ (lookback s' = lookback s ++ [entry]
          /\ length (lookback s ++ [entry]) < lookahead_interval)
      \/ (lookback s' = tl (lookback s ++ [entry])
          /\ length (lookback s ++ [entry]) = lookahead_interval)).
Proof.
  intros entry s s'.
  assert (Hs : length (lookback s) <= lookahead_interval - 1).
  { apply process_ob_events_bound. cbn. lia. }
  split; [reflexivity | split].
  - now apply process_ob_event_bound.
  - destruct (process_ob_event_buffer s ob) as [H | [H | [H1 H2]]]; [now left | now right; left |].
    right; right. split; [exact H1 |].
    fold entry in H2. rewrite length_app in *. unfold lookahead_interval in *. cbn [length] in *. lia.
Qed.

End SvmProperties.

(** The extraction run on the stand-in book, in binary64. *)
Lemma extract_price_differences_equal_witness :
  1 <= 3 <= Svm.nr_levels - 1
  /\ let f := Svm.values (Svm.book_extract (Svm.sample_book 0)) in
     let mid := fun level =>
       PrimFloat.div (Svm.double_of_int (Svm.book_midprice (Svm.sample_book 0) level))
                     (Svm.double_of_int 10000) in
     let first := nth_error f (6 * Svm.nr_levels + 2 * (3 - 1)) in
     let second := nth_error f (6 * Svm.nr_levels + 2 * (3 - 1) + 1) in
     first = second
     /\ first = Some (PrimFloat.abs (PrimFloat.sub (mid 3) (mid (3 - 1)))).
Proof.
  split; [unfold Svm.nr_levels; lia |].
  apply (extract_price_differences_equal
           (Svm.at_level Svm.level_bid_price) (Svm.at_level Svm.level_ask_price)
           (Svm.at_level Svm.level_bid_size) (Svm.at_level Svm.level_ask_size)
           Svm.book_midprice Svm.double_of_int (Svm.double_of_int 10000)
           PrimFloat.div PrimFloat.sub PrimFloat.abs (Svm.sample_book 0) 3).
  unfold Svm.nr_levels. lia.
Defined.

(** Twelve distinct books in a row leave four entries in the buffer and
    eight lines printed. *)
Example lookback_after_twelve_events :
  let s := fold_left Svm.book_process_ob_event
             (map Svm.sample_book [0; 1; 2; 3; 4; 5; 6; 7; 8; 9; 10; 11]%N)
             (Svm.svm_session_init float) in
  length (Svm.lookback s) = 4 /\ length (Svm.printed s) = 8.
Proof. vm_compute. auto. Qed.

(** ** helix-svm: labels, the feature layout and the printed lines *)
Section SvmFurther.
Import Svm.

Context {helix_order_book_t double : Type}
  (helix_order_book_ask_levels helix_order_book_bid_levels : helix_order_book_t -> nat)
  (helix_order_book_bid_price helix_order_book_ask_price
   helix_order_book_bid_size helix_order_book_ask_size
   helix_order_book_midprice : helix_order_book_t -> nat -> N)
  (of_int : N -> double) (lit_10000 : double)
  (fdiv fsub : double -> double -> double) (fabs : double -> double)
  (feqb : double -> double -> bool).

Local Abbreviation extract :=
  (Svm.extract helix_order_book_bid_price helix_order_book_ask_price
     helix_order_book_bid_size helix_order_book_ask_size helix_order_book_midprice
     of_int lit_10000 fdiv fsub fabs).

Local Abbreviation process_ob_event :=
  (Svm.process_ob_event helix_order_book_ask_levels helix_order_book_bid_levels
     helix_order_book_bid_price helix_order_book_ask_price
     helix_order_book_bid_size helix_order_book_ask_size helix_order_book_midprice
     of_int lit_10000 fdiv fsub fabs feqb).

Local Abbreviation process_ob_events :=
  (Svm.process_ob_events helix_order_book_ask_levels helix_order_book_bid_levels
     helix_order_book_bid_price helix_order_book_ask_price
     helix_order_book_bid_size helix_order_book_ask_size helix_order_book_midprice
     of_int lit_10000 fdiv fsub fabs feqb).

Local Abbreviation shallow :=
  (Svm.shallow helix_order_book_ask_levels helix_order_book_bid_levels).

Local Abbreviation entry_of :=
  (Svm.entry_of helix_order_book_bid_price helix_order_book_ask_price
     helix_order_book_bid_size helix_order_book_ask_size helix_order_book_midprice
     of_int lit_10000 fdiv fsub fabs).

Local Abbreviation differs :=
  (Svm.differs helix_order_book_bid_price helix_order_book_ask_price
     helix_order_book_bid_size helix_order_book_ask_size helix_order_book_midprice
     of_int lit_10000 fdiv fsub fabs feqb).

(** X1. The integer printed for a label is the sign of the change of the
    mid price: +1 when it rose, -1 when it fell, 0 when it stayed. *)
Theorem label_int_sign (prev_midprice midprice : N) :
  label_int (label prev_midprice midprice)
  = Z.sgn (Z.of_N midprice - Z.of_N prev_midprice).
Proof.
  unfold label.
  destruct (N.ltb_spec prev_midprice midprice) as [H | H].
  - cbn. symmetry. apply Z.sgn_pos. lia.
  - destruct (N.ltb_spec midprice prev_midprice) as [H' | H'].
    + cbn. symmetry. apply Z.sgn_neg. lia.
    + cbn. symmetry. apply Z.sgn_null. lia.
Qed.

(** X2. The layout of the level block of the feature vector: level [i]
    fills the six places from [6 * i] on with the ask price, the ask size,
    the bid price, the bid size, the spread (ask price minus bid price) and
    the mid price, prices divided by 10000.0; the vector has 38 entries. *)
Theorem extract_level_layout (ob : helix_order_book_t) (i : nat) :
  i < nr_levels ->
  let f := values (extract ob) in
  let price := fun p => fdiv (of_int p) lit_10000 in
  let ask_price := price (helix_order_book_ask_price ob i) in
  let bid_price := price (helix_order_book_bid_price ob i) in
  length f = 38
  /\ nth_error f (6 * i) = Some ask_price
  /\ nth_error f (6 * i + 1) = Some (of_int (helix_order_book_ask_size ob i))
  /\ nth_error f (6 * i + 2) = Some bid_price
  /\ nth_error f (6 * i + 3) = Some (of_int (helix_order_book_bid_size ob i))
  /\ nth_error f (6 * i + 4) = Some (fsub ask_price bid_price)
  /\ nth_error f (6 * i + 5) = Some (price (helix_order_book_midprice ob i)).
Proof.
  unfold nr_levels. intros Hi.
  do 5 (destruct i as [| i]; [cbn; repeat split; reflexivity |]).
  lia.
Qed.

(** X3. [extract] reads the levels 0 to 4 and nothing else: two order books
    whose accessors agree on these levels have the same feature vector. *)
Theorem extract_top_levels_only (ob1 ob2 : helix_order_book_t) :
  Forall (fun i =>
            helix_order_book_bid_price ob1 i = helix_order_book_bid_price ob2 i
            /\ helix_order_book_ask_price ob1 i = helix_order_book_ask_price ob2 i
            /\ helix_order_book_bid_size ob1 i = helix_order_book_bid_size ob2 i
            /\ helix_order_book_ask_size ob1 i = helix_order_book_ask_size ob2 i
            /\ helix_order_book_midprice ob1 i = helix_order_book_midprice ob2 i)
         (seq 0 nr_levels) ->
  extract ob1 = extract ob2.
Proof.
  intros H. unfold nr_levels in H. cbn [seq] in H.
  repeat match goal with
         | H : Forall _ (_ :: _) |- _ =>
           let H1 := fresh in let H2 := fresh in
           apply Forall_cons_iff in H as [H1 H2];
           destruct H1 as (? & ? & ? & ? & ?)
         end.
  unfold Svm.extract, nr_levels. cbn [seq fold_left Nat.sub].
  unfold extract_level, extract_difference. cbn [Nat.sub].
  congruence.
Qed.

Lemma combine_seq (A : Type) (l : list A) (start : nat) :
  map fst (combine (seq start (length l)) l) = seq start (length l)
  /\ map snd (combine (seq start (length l)) l) = l.
Proof.
  revert start; induction l as [| x l IH]; intros start; [split; reflexivity |].
  cbn. destruct (IH (S start)) as [H1 H2]. now rewrite H1, H2.
Qed.

(** [fmt] numbers the features from 1 on, one by one, each index with its
    value, and puts the integer of the label in front. *)
Lemma fmt_numbers_from_one (l : label_type) (f : features double) :
  fst (fmt l f) = label_int l
  /\ map fst (snd (fmt l f)) = seq 1 (length (values f))
  /\ map snd (snd (fmt l f)) = values f.
Proof.
  unfold fmt. cbn [fst snd].
  destruct (combine_seq double (values f) 1) as [H1 H2]. auto.
Qed.

(** What one call does, case by case: nothing; one entry appended while
    the buffer stays short; or one entry appended, the front popped and its
    line printed. *)
Lemma process_ob_event_cases (s : svm_session double) (ob : helix_order_book_t) :
  let s' := process_ob_event s ob in
  s' = s
  \/ (length (lookback s) + 1 < lookahead_interval
      /\ s' = set_lookback (lookback s ++ [entry_of ob]) s)
  \/ (exists old rest,
        lookback s = old :: rest
        /\ lookahead_interval <= length (lookback s) + 1
        /\ s' = print_line (line_of old (entry_of ob))
                  (set_lookback (rest ++ [entry_of ob]) s)).
Proof.
  intros s'. subst s'. unfold Svm.process_ob_event.
  destruct (_ && _); [now left |].
  destruct (lookback s) as [| [prev_midprice prev_features] rest] eqn:E.
  - right; left. split; [cbn; unfold lookahead_interval; lia | reflexivity].
  - destruct (vector_eqb _ _ _); [now left |].
    cbn [set_lookback lookback].
    destruct (Nat.ltb_spec (length (((prev_midprice, prev_features) :: rest) ++
                [(helix_order_book_midprice ob 0, extract ob)])) lookahead_interval)
      as [H | H]; rewrite length_app in H; cbn [length] in H.
    + right; left. split; [cbn [length]; lia | reflexivity].
    + right; right. exists (prev_midprice, prev_features), rest.
      split; [reflexivity | split; [cbn [length]; lia | reflexivity]].
Qed.

(** When the call goes past both early returns. *)
Lemma process_ob_event_taken (s : svm_session double) (ob : helix_order_book_t) :
  shallow ob = false ->
  (forall old rest, lookback s = old :: rest ->
                    vector_eqb feqb (values (extract ob)) (values (snd old)) = false) ->
  let s' := process_ob_event s ob in
  (length (lookback s) + 1 < lookahead_interval
   /\ s' = set_lookback (lookback s ++ [entry_of ob]) s)
  \/ (exists old rest,
        lookback s = old :: rest
        /\ lookahead_interval <= length (lookback s) + 1
        /\ s' = print_line (line_of old (entry_of ob))
                  (set_lookback (rest ++ [entry_of ob]) s)).
Proof.
  intros Hdeep Hnew s'. subst s'. unfold Svm.process_ob_event.
  unfold Svm.shallow in Hdeep. rewrite Hdeep.
  destruct (lookback s) as [| [prev_midprice prev_features] rest] eqn:E.
  - left. split; [cbn; unfold lookahead_interval; lia | reflexivity].
  - pose proof (Hnew _ _ eq_refl) as Hn. cbn [snd] in Hn. rewrite Hn.
    cbn [set_lookback lookback].
    destruct (Nat.ltb_spec (length (((prev_midprice, prev_features) :: rest) ++
                [(helix_order_book_midprice ob 0, extract ob)])) lookahead_interval)
      as [H | H]; rewrite length_app in H; cbn [length] in H.
    + left. split; [cbn [length]; lia | reflexivity].
    + right. exists (prev_midprice, prev_features), rest.
      split; [reflexivity | split; [cbn [length]; lia | reflexivity]].
Qed.

Lemma process_ob_events_snoc (s : svm_session double) (obs : list helix_order_book_t)
    (ob : helix_order_book_t) :
  process_ob_events s (obs ++ [ob]) = process_ob_event (process_ob_events s obs) ob.
Proof. unfold Svm.process_ob_events. now rewrite fold_left_app. Qed.

(** X4. A call prints at most one line, and only when it pops the front of
    the buffer: the line carries the features of the popped entry, labelled
    with the movement from its mid price to the mid price of the event at
    hand.  [current_time] is never moved. *)
Theorem process_ob_event_prints_popped (s : svm_session double) (ob : helix_order_book_t) :
  let s' := process_ob_event s ob in
  current_time s' = current_time s
  /\ ((printed s' = printed s
       /\ (lookback s' = lookback s \/ lookback s' = lookback s ++ [entry_of ob]))
      \/ (exists old rest,
            lookback s = old :: rest
            /\ lookback s' = rest ++ [entry_of ob]
            /\ printed s' = printed s ++ [line_of old (entry_of ob)])).
Proof.
  intros s'. subst s'.
  destruct (process_ob_event_cases s ob) as [-> | [[_ ->] | (old & rest & E & _ & ->)]].
  - split; [reflexivity | left; auto].
  - split; [reflexivity | left; auto].
  - split; [reflexivity | right]. exists old, rest. auto.
Qed.

Lemma line_of_libsvm (old new : N * features double) :
  length (values (snd old)) = 6 * nr_levels + 2 * (nr_levels - 1) ->
  libsvm_line (line_of old new).
Proof.
  intros Hlen. unfold libsvm_line, line_of, fmt. cbn [fst snd]. split.
  - destruct (label (fst old) (fst new)); cbn; auto.
  - rewrite <- Hlen. apply (combine_seq double).
Qed.

Lemma process_ob_event_lines (s : svm_session double) (ob : helix_order_book_t) :
  Forall (fun e => length (values (snd e)) = 6 * nr_levels + 2 * (nr_levels - 1))
         (lookback s) ->
  Forall (@libsvm_line double) (printed s) ->
  Forall (fun e => length (values (snd e)) = 6 * nr_levels + 2 * (nr_levels - 1))
         (lookback (process_ob_event s ob))
  /\ Forall (@libsvm_line double) (printed (process_ob_event s ob)).
Proof.
  intros Hb Hp.
  destruct (process_ob_event_cases s ob) as [-> | [[_ ->] | (old & rest & E & _ & ->)]].
  - auto.
  - cbn [set_lookback lookback printed]. split; [| exact Hp].
    apply Forall_app. split; [exact Hb |]. constructor; [reflexivity | constructor].
  - cbn [print_line set_lookback lookback printed].
    rewrite E in Hb. apply Forall_cons_iff in Hb as [Hold Hrest]. split.
    + apply Forall_app. split; [exact Hrest |]. constructor; [reflexivity | constructor].
    + apply Forall_app. split; [exact Hp |].
      constructor; [now apply line_of_libsvm | constructor].
Qed.

(** X5. Every line the session prints, over any stream of events, has a
    label among -1, 0, 1 and exactly 38 features numbered 1 to 38. *)
Theorem printed_lines_libsvm (obs : list helix_order_book_t) :
  Forall (@libsvm_line double) (printed (process_ob_events (svm_session_init double) obs)).
Proof.
  enough (H : Forall (fun e => length (values (snd e)) = 6 * nr_levels + 2 * (nr_levels - 1))
                (lookback (process_ob_events (svm_session_init double) obs))
              /\ Forall (@libsvm_line double)
                   (printed (process_ob_events (svm_session_init double) obs)))
    by apply H.
  induction obs as [| ob obs IH] using rev_ind.
  - split; constructor.
  - rewrite process_ob_events_snoc. destruct IH as [Hb Hp].
    now apply process_ob_event_lines.
Qed.

(** X6. Over any stream of events, the lines printed and the entries
    buffered together never outnumber the events, and once a line has been
    printed the buffer holds exactly [lookahead_interval - 1] entries: the
    first four events that are taken print nothing. *)
Theorem printed_and_buffered_count (obs : list helix_order_book_t) :
  let s := process_ob_events (svm_session_init double) obs in
  length (printed s) + length (lookback s) <= length obs
  /\ (printed s <> [] -> length (lookback s) = lookahead_interval - 1).
Proof.
  induction obs as [| ob obs IH] using rev_ind.
  - cbn. split; [lia | congruence].
  - cbn zeta in *. rewrite process_ob_events_snoc, length_app. cbn [length].
    set (s := process_ob_events (svm_session_init double) obs) in *.
    destruct IH as [Hcount Hfull].
    pose proof (process_ob_events_bound helix_order_book_ask_levels
                  helix_order_book_bid_levels helix_order_book_bid_price
                  helix_order_book_ask_price helix_order_book_bid_size
                  helix_order_book_ask_size helix_order_book_midprice of_int lit_10000
                  fdiv fsub fabs feqb obs (svm_session_init double)) as Hbound.
    fold s in Hbound. unfold lookahead_interval in *.
    assert (Hb : length (lookback s) <= 4) by (apply Hbound; cbn; lia).
    destruct (process_ob_event_cases s ob) as [-> | [[Hshort ->] | (old & rest & E & Hlong & ->)]].
    + split; [lia | exact Hfull].
    + cbn [set_lookback lookback printed]. rewrite length_app. cbn [length].
      unfold lookahead_interval in Hshort. split; [lia |].
      intros Hp. specialize (Hfull Hp). lia.
    + cbn [print_line set_lookback lookback printed]. rewrite !length_app. cbn [length].
      rewrite E in *. cbn [length] in *. unfold lookahead_interval in Hlong.
      split; [lia | intros _; lia].
Qed.

Lemma process_ob_event_shallow (s : svm_session double) (ob : helix_order_book_t) :
  shallow ob = true -> process_ob_event s ob = s.
Proof.
  intros H. unfold Svm.process_ob_event. unfold Svm.shallow in H. now rewrite H.
Qed.

(** X7. Events whose book has fewer than [nr_levels] levels on both sides
    are transparent: dropping them from a stream changes neither the buffer
    nor the lines printed. *)
Theorem shallow_events_are_skipped (s : svm_session double) (obs : list helix_order_book_t) :
  process_ob_events s obs
  = process_ob_events s (filter (fun ob => negb (shallow ob)) obs).
Proof.
  revert s; induction obs as [| ob obs IH]; intros s; [reflexivity |].
  cbn [filter]. destruct (shallow ob) eqn:E; cbn [negb].
  - cbn [Svm.process_ob_events fold_left]. rewrite (process_ob_event_shallow s ob E).
    apply IH.
  - cbn [Svm.process_ob_events fold_left]. apply IH.
Qed.


Lemma all_later_snoc (A : Type) (R : A -> A -> bool) (l : list A) (x : A) :
  all_later R (l ++ [x]) = all_later R l && forallb (fun a => R a x) l.
Proof.
  induction l as [| a l IH]; [reflexivity |].
  cbn [app all_later forallb]. rewrite IH, forallb_app. cbn [forallb].
  destruct (R a x), (forallb (R a) l), (all_later R l), (forallb (fun a0 => R a0 x) l);
    reflexivity.
Qed.

Lemma skipn_front (A : Type) (k : nat) (l : list A) (x : A) (r : list A) :
  skipn k l = x :: r -> nth_error l k = Some x /\ skipn (S k) l = r.
Proof.
  revert l; induction k as [| k IH]; intros l E.
  - cbn in E. subst l. auto.
  - destruct l as [| y l]; [discriminate |]. cbn [skipn] in E.
    destruct (IH l E) as [H1 H2]. auto.
Qed.

Lemma in_skipn (A : Type) (k : nat) (l : list A) (x : A) :
  In x (skipn k l) -> In x l.
Proof.
  intros H. rewrite <- (firstn_skipn k l). apply in_or_app. now right.
Qed.

Lemma combine_snoc (A B : Type) (a t : list A) (b : list B) (x : A) (y : B) :
  nth_error a (length b) = Some x ->
  combine (a ++ t) (b ++ [y]) = combine a b ++ [(x, y)].
Proof.
  revert b; induction a as [| a0 a IH]; intros b H.
  - destruct b; discriminate.
  - destruct b as [| b0 b].
    + cbn in H. injection H as <-. cbn. now destruct (a ++ t).
    + cbn [length nth_error] in H. cbn. now rewrite (IH b H).
Qed.

(** X8. On a stream in which every book is deep enough and the features of
    every event differ from those of all earlier events, each event is
    buffered: the buffer holds the last [lookahead_interval - 1] entries,
    and the k-th line printed carries the features of the k-th event,
    labelled with the movement of the mid price from that event to the
    event [lookahead_interval - 1] places later. *)
Theorem distinct_stream_output (obs : list helix_order_book_t) :
  forallb (fun ob => negb (shallow ob)) obs = true ->
  all_later differs obs = true ->
  let entries := map entry_of obs in
  let s := process_ob_events (svm_session_init double) obs in
  lookback s = skipn (length obs - (lookahead_interval - 1)) entries
  /\ printed s
     = map (fun p => line_of (fst p) (snd p))
           (combine entries (skipn (lookahead_interval - 1) entries)).
Proof.
  unfold lookahead_interval. cbn [Nat.sub].
  induction obs as [| ob obs IH] using rev_ind; intros Hdeep Hnew; [split; reflexivity |].
  rewrite forallb_app in Hdeep. apply andb_true_iff in Hdeep as [Hdeep Hdeep1].
  cbn [forallb] in Hdeep1. rewrite andb_true_r in Hdeep1.
  apply negb_true_iff in Hdeep1.
  rewrite all_later_snoc in Hnew. apply andb_true_iff in Hnew as [Hnew Hnew1].
  destruct (IH Hdeep Hnew) as [Hb Hp]. clear IH.
  cbn zeta. rewrite process_ob_events_snoc, map_app, length_app. cbn [map length].
  set (s := process_ob_events (svm_session_init double) obs) in *.
  set (E := map entry_of obs) in *.
  assert (HE : length E = length obs) by (subst E; apply length_map).
  assert (Hfront : forall old rest, lookback s = old :: rest ->
             vector_eqb feqb (values (extract ob)) (values (snd old)) = false).
  { intros old rest Eo.
    assert (Hin : In old E).
    { apply (in_skipn _ (length obs - 4)). rewrite <- Hb, Eo. now left. }
    subst E. apply in_map_iff in Hin as (ob0 & <- & Hin0).
    rewrite forallb_forall in Hnew1. specialize (Hnew1 _ Hin0).
    unfold Svm.differs in Hnew1. now apply negb_true_iff in Hnew1. }
  destruct (process_ob_event_taken s ob Hdeep1 Hfront)
    as [[Hshort ->] | (old & rest & Eo & Hlong & ->)].
  - (* the buffer is still short: nothing is printed *)
    assert (Hn : length obs < 4).
    { rewrite Hb, length_skipn, HE in Hshort. unfold lookahead_interval in Hshort. lia. }
    cbn [set_lookback lookback printed]. split.
    + rewrite Hb. replace (length obs - 4) with 0 by lia.
      replace (length obs + 1 - 4) with 0 by lia. reflexivity.
    + rewrite Hp.
      rewrite (@skipn_all2 _ 4 E) by lia.
      rewrite (@skipn_all2 _ 4 (E ++ [entry_of ob])) by (rewrite length_app; cbn; lia).
      now rewrite !combine_nil.
  - (* the buffer is full: the front goes out and its line is printed *)
    assert (Hn : 4 <= length obs).
    { rewrite Hb, length_skipn, HE in Hlong. unfold lookahead_interval in Hlong. lia. }
    rewrite Hb in Eo. apply skipn_front in Eo as [Hold Hrest].
    cbn [print_line set_lookback lookback printed]. split.
    + rewrite <- Hrest.
      replace (length obs + 1 - 4) with (S (length obs - 4)) by lia.
      rewrite skipn_app.
      replace (S (length obs - 4) - length E) with 0 by lia. reflexivity.
    + rewrite Hp, skipn_app.
      replace (4 - length E) with 0 by lia.
      change (skipn 0 [entry_of ob]) with [entry_of ob].
      rewrite (combine_snoc _ _ E [entry_of ob] (skipn 4 E) old (entry_of ob)).
      * now rewrite map_app.
      * rewrite length_skipn, HE. exact Hold.
Qed.

End SvmFurther.

(** ** helix-svm: the command line *)
Section CliProperties.
Import Ascii String Cli.
Local Open Scope string_scope.

Variable program : string.
Variable strtol : string -> Z.

(** The configuration that [parse_options] returns when every option
    character is one it stores: each field holds the argument of the last
    occurrence of its option, or what it held before. *)
Lemma parse_options_stored (opts : list (ascii * string)) (cfg : config) :
  forallb (fun o => stored (fst o)) opts = true ->
  parse_options program strtol cfg opts
  = Returns
      {| symbol := or_else (last_arg "s" opts) (symbol cfg);
         multicast_proto := or_else (last_arg "c" opts) (multicast_proto cfg);
         multicast_addr := or_else (last_arg "a" opts) (multicast_addr cfg);
         multicast_port := match last_arg "p" opts with
                           | Some v => strtol v
                           | None => multicast_port cfg
                           end;
         output := or_else (last_arg "o" opts) (output cfg) |}.
Proof.
  revert cfg; induction opts as [| [c optarg] opts IH]; intros cfg H.
  - now destruct cfg.
  - cbn [forallb fst] in H. apply andb_true_iff in H as [Hc H].
    cbn [parse_options last_arg]. unfold stored in Hc.
    destruct (Ascii.eqb_spec c "s") as [-> | _];
      [rewrite (IH _ H); cbn;
       destruct (last_arg "s" opts), (last_arg "c" opts), (last_arg "a" opts),
         (last_arg "p" opts), (last_arg "o" opts); reflexivity |].
    destruct (Ascii.eqb_spec c "c") as [-> | _];
      [rewrite (IH _ H); cbn;
       destruct (last_arg "s" opts), (last_arg "c" opts), (last_arg "a" opts),
         (last_arg "p" opts), (last_arg "o" opts); reflexivity |].
    destruct (Ascii.eqb_spec c "a") as [-> | _];
      [rewrite (IH _ H); cbn;
       destruct (last_arg "s" opts), (last_arg "c" opts), (last_arg "a" opts),
         (last_arg "p" opts), (last_arg "o" opts); reflexivity |].
    destruct (Ascii.eqb_spec c "o") as [-> | _];
      [rewrite (IH _ H); cbn;
       destruct (last_arg "s" opts), (last_arg "c" opts), (last_arg "a" opts),
         (last_arg "p" opts), (last_arg "o" opts); reflexivity |].
    destruct (Ascii.eqb_spec c "p") as [-> | _];
      [rewrite (IH _ H); cbn;
       destruct (last_arg "s" opts), (last_arg "c" opts), (last_arg "a" opts),
         (last_arg "p" opts), (last_arg "o" opts); reflexivity |].
    discriminate.
Qed.

Lemma parse_options_unknown (opts : list (ascii * string)) (cfg : config) :
  forallb (fun o => stored (fst o)) opts = false ->
  parse_options program strtol cfg opts = Exits 1 to_stdout (usage program).
Proof.
  revert cfg; induction opts as [| [c optarg] opts IH]; intros cfg H; [discriminate |].
  cbn [forallb fst] in H. cbn [parse_options]. unfold stored in H.
  destruct (Ascii.eqb c "s"); [apply IH; exact H |].
  destruct (Ascii.eqb c "c"); [apply IH; exact H |].
  destruct (Ascii.eqb c "a"); [apply IH; exact H |].
  destruct (Ascii.eqb c "o"); [apply IH; exact H |].
  destruct (Ascii.eqb c "p"); [apply IH; exact H |].
  reflexivity.
Qed.

(** X10. [parse_options] returns exactly when every character that
    [getopt_long] hands back is one of s, c, a, o, p; as soon as one is not
    (-h, or the ['?'] of an option it does not know), the usage text goes to
    [stdout] and the program exits with status 1, whatever else was given. *)
Theorem parse_options_usage (opts : list (ascii * string)) (cfg : config) :
  (forallb (fun o => stored (fst o)) opts = true
   /\ exists cfg', parse_options program strtol cfg opts = Returns cfg')
  \/ (forallb (fun o => stored (fst o)) opts = false
      /\ parse_options program strtol cfg opts = Exits 1 to_stdout (usage program)).
Proof.
  destruct (forallb (fun o => stored (fst o)) opts) eqn:E.
  - left. split; [reflexivity |]. eexists. now apply parse_options_stored.
  - right. split; [reflexivity |]. now apply parse_options_unknown.
Qed.

(** X11. When an option is given more than once the last occurrence wins,
    and an option that is not given leaves its field as it was; the port is
    what [strtol] makes of the last [-p] argument. *)
Theorem parse_options_last_wins (opts : list (ascii * string)) (cfg : config) :
  forallb (fun o => stored (fst o)) opts = true ->
  exists cfg',
    parse_options program strtol cfg opts = Returns cfg'
    /\ symbol cfg' = or_else (last_arg "s" opts) (symbol cfg)
    /\ multicast_proto cfg' = or_else (last_arg "c" opts) (multicast_proto cfg)
    /\ multicast_addr cfg' = or_else (last_arg "a" opts) (multicast_addr cfg)
    /\ output cfg' = or_else (last_arg "o" opts) (output cfg)
    /\ multicast_port cfg' = match last_arg "p" opts with
                             | Some v => strtol v
                             | None => multicast_port cfg
                             end.
Proof.
  intros H. eexists. split; [now apply parse_options_stored |].
  cbn. repeat split.
Qed.

(** X12. When [getopt_long] hands back -h or an option that is not known,
    [main] leaves through [usage]: status 1, the usage text on [stdout].
    If not, [main] gets past its option checks exactly when -s, -c and -a
    were given and the last -p argument converts to a non-zero number; else
    it exits with status 1 and one message on [stderr], for the first of
    symbol, protocol, address, port that is missing.  A port that converts
    to 0 counts as missing, and -o is optional. *)
Theorem main_options_checks (opts : list (ascii * string)) :
  main_options program strtol opts
  = if forallb (fun o => stored (fst o)) opts then
      match last_arg "s" opts, last_arg "c" opts, last_arg "a" opts with
      | None, _, _ =>
        Exits 1 to_stderr
          ("error: symbol is not specified. Use the '-s' option to specify it." ++ nl)
      | Some _, None, _ =>
        Exits 1 to_stderr
          ("error: multicast protocol is not specified. Use the '-c' option to specify it."
           ++ nl)
      | Some _, Some _, None =>
        Exits 1 to_stderr
          ("error: multicast address is not specified. Use the '-a' option to specify it."
           ++ nl)
      | Some sym, Some proto, Some addr =>
        let port := match last_arg "p" opts with Some v => strtol v | None => 0%Z end in
        if (port =? 0)%Z then
          Exits 1 to_stderr
            ("error: multicast port is not specified. Use the '-p' option to specify it."
             ++ nl)
        else
          Returns {| symbol := Some sym; multicast_proto := Some proto;
                     multicast_addr := Some addr; multicast_port := port;
                     output := last_arg "o" opts |}
      end
    else Exits 1 to_stdout (usage program).
Proof.
  unfold main_options.
  destruct (forallb (fun o => stored (fst o)) opts) eqn:H.
  - rewrite (parse_options_stored opts config_zero H).
    cbn [symbol multicast_proto multicast_addr multicast_port output config_zero or_else].
    destruct (last_arg "s" opts); [| reflexivity].
    destruct (last_arg "c" opts); [| reflexivity].
    destruct (last_arg "a" opts); [| reflexivity].
    cbn zeta. destruct (last_arg "p" opts), (last_arg "o" opts); reflexivity.
  - now rewrite (parse_options_unknown opts config_zero H).
Qed.

End CliProperties.

(** ** The further theorems at work *)
Section FurtherInstances.
Import Svm.

(** Level 2 of the stand-in book, in binary64. *)
Lemma extract_level_layout_witness :
  2 < nr_levels
  /\ let ob := sample_book 0 in
     let f := values (book_extract ob) in
     let price := fun p => PrimFloat.div (double_of_int p) (double_of_int 10000) in
     let ask_price := price (at_level level_ask_price ob 2) in
     let bid_price := price (at_level level_bid_price ob 2) in
     length f = 38
     /\ nth_error f (6 * 2) = Some ask_price
     /\ nth_error f (6 * 2 + 1) = Some (double_of_int (at_level level_ask_size ob 2))
     /\ nth_error f (6 * 2 + 2) = Some bid_price
     /\ nth_error f (6 * 2 + 3) = Some (double_of_int (at_level level_bid_size ob 2))
     /\ nth_error f (6 * 2 + 4) = Some (PrimFloat.sub ask_price bid_price)
     /\ nth_error f (6 * 2 + 5) = Some (price (book_midprice ob 2)).
Proof.
  split; [unfold nr_levels; lia |].
  apply (extract_level_layout
           (at_level level_bid_price) (at_level level_ask_price)
           (at_level level_bid_size) (at_level level_ask_size) book_midprice
           double_of_int (double_of_int 10000) PrimFloat.div PrimFloat.sub PrimFloat.abs
           (sample_book 0) 2).
  unfold nr_levels. lia.
Defined.

(** A book with seven levels and the book made of its first five. *)
Lemma extract_top_levels_only_witness :
  let deep := sample_book 0 ++ sample_book 9 in
  let top := sample_book 0 in
  deep <> top /\ book_extract deep = book_extract top.
Proof.
  split; [discriminate |].
  apply (extract_top_levels_only
           (at_level level_bid_price) (at_level level_ask_price)
           (at_level level_bid_size) (at_level level_ask_size) book_midprice
           double_of_int (double_of_int 10000) PrimFloat.div PrimFloat.sub PrimFloat.abs
           (sample_book 0 ++ sample_book 9) (sample_book 0)).
  repeat (constructor; [repeat (split; [reflexivity |]); reflexivity |]).
  constructor.
Defined.

(** Seven different books in a row: three lines, for the events 0, 1, 2
    against the events 4, 5, 6. *)
Lemma distinct_stream_output_witness :
  let obs := map sample_book [0; 1; 2; 3; 4; 5; 6]%N in
  forallb (fun ob => negb (book_shallow ob)) obs = true
  /\ all_later book_differs obs = true
  /\ let entries := map book_entry_of obs in
     let s := book_process_ob_events (svm_session_init float) obs in
     lookback s = skipn (length obs - (lookahead_interval - 1)) entries
     /\ printed s
        = map (fun p => line_of (fst p) (snd p))
              (combine entries (skipn (lookahead_interval - 1) entries)).
Proof.
  split; [vm_compute; reflexivity | split; [vm_compute; reflexivity |]].
  apply (distinct_stream_output (@length book_level) (@length book_level)
           (at_level level_bid_price) (at_level level_ask_price)
           (at_level level_bid_size) (at_level level_ask_size) book_midprice
           double_of_int (double_of_int 10000) PrimFloat.div PrimFloat.sub PrimFloat.abs
           PrimFloat.eqb (map sample_book [0; 1; 2; 3; 4; 5; 6]%N));
    vm_compute; reflexivity.
Defined.


End FurtherInstances.

Section CliInstances.
Import Ascii String Cli.
Local Open Scope string_scope.

(** The symbol given twice, the port once. *)
Lemma parse_options_last_wins_witness :
  let opts := [("s"%char, "AAPL"); ("p"%char, "26477"); ("s"%char, "MSFT")] in
  forallb (fun o => stored (fst o)) opts = true
  /\ exists cfg',
       parse_options "helix-svm" decimal config_zero opts = Returns cfg'
       /\ symbol cfg' = or_else (last_arg "s" opts) (symbol config_zero)
       /\ multicast_proto cfg' = or_else (last_arg "c" opts) (multicast_proto config_zero)
       /\ multicast_addr cfg' = or_else (last_arg "a" opts) (multicast_addr config_zero)
       /\ output cfg' = or_else (last_arg "o" opts) (output config_zero)
       /\ multicast_port cfg' = match last_arg "p" opts with
                                | Some v => decimal v
                                | None => multicast_port config_zero
                                end.
Proof.
  split; [reflexivity |].
  apply (parse_options_last_wins "helix-svm" decimal
           [("s"%char, "AAPL"); ("p"%char, "26477"); ("s"%char, "MSFT")] config_zero).
  reflexivity.
Defined.

(** All the required options with a port that converts to 0, and the same
    options followed by -h. *)
Lemma main_options_checks_witness :
  let opts := [("s"%char, "AAPL"); ("c"%char, "nasdaq-binaryfile");
               ("a"%char, "233.54.12.111"); ("p"%char, "port")] in
  main_options "helix-svm" decimal opts
  = Exits 1 to_stderr
      ("error: multicast port is not specified. Use the '-p' option to specify it."
       ++ nl)
  /\ main_options "helix-svm" decimal (opts ++ [("h"%char, "")])
     = Exits 1 to_stdout (usage "helix-svm").
Proof.
  split.
  - rewrite (main_options_checks "helix-svm" decimal
               [("s"%char, "AAPL"); ("c"%char, "nasdaq-binaryfile");
                ("a"%char, "233.54.12.111"); ("p"%char, "port")]).
    reflexivity.
  - rewrite (main_options_checks "helix-svm" decimal
               ([("s"%char, "AAPL"); ("c"%char, "nasdaq-binaryfile");
                 ("a"%char, "233.54.12.111"); ("p"%char, "port")]
                ++ [("h"%char, "")])).
    reflexivity.
Defined.

End CliInstances.
